(** * huprt: the SIGHUP restart handshake

    A shallow embedding of the Go package [huprt] (files [errors.go] and
    [huprt.go]) together with the properties of its error rendering, of the
    argument vector it builds for the replacement process, and of the
    [Start] / [Restart] handshake. *)

From stdpp Require Import base gmap strings list.
From Stdlib Require Import ZArith Lia.

Local Open Scope string_scope.
Local Open Scope list_scope.
Local Open Scope Z_scope.

(** ** errors.go *)

(** Go's [error] interface.  A foreign error is observed by this package
    only through its [Error()] method, so a value of the interface is
    modelled by the string that method returns. *)
Record error : Type := mkerror { error_Error : string }.

(** [type Error struct { Code int; Inner error }]; a nil [Inner] is [None].
    The code is only compared and looked up, never computed with, so the
    width of [int] plays no part. *)
Record Error : Type := mkError { Code : Z; Inner : option error }.

(** The [iota] block. *)
Definition ErrTimeout : Z := 0.
Definition ErrNewProcess : Z := 1.
Definition ErrKillProcess : Z := 2.
Definition ErrRestart : Z := 3.
Definition ErrNoProcess : Z := 4.

Definition errMessages : gmap Z string :=
  <[ErrTimeout := "huprt: process restart timed out"]>
  (<[ErrNewProcess := "huprt: error starting new process"]>
  (<[ErrKillProcess := "huprt: error killing parent process"]>
  (<[ErrRestart := "huprt: restart error"]>
  (<[ErrNoProcess := "huprt: Hupd.Process is nil"]> ∅)))).

(** [func (e *Error) Error() string]; the receiver is a pointer, [None] is
    the nil pointer. *)
Definition Error_Error (e : option Error) : string :=
  match e with
  | None => "huprt: no error"
  | Some e =>
      let msg :=
        match errMessages !! Code e with
        | Some m => m
        | None => "huprt: unknown error"
        end in
      match Inner e with
      | Some inner => msg +:+ ": " +:+ error_Error inner
      | None => msg
      end
  end.

(** ** huprt.go: the command for the replacement process *)

(** An open file of the process ([*os.File]), named by its descriptor. *)
Record File : Type := mkFile { fd : Z }.

(** The fields of [exec.Cmd] that this package writes.  [Stdout] and
    [Stderr] are interface values, nil in a zero [exec.Cmd]. *)
Record Cmd : Type := mkCmd {
  Path : string;
  Args : list string;
  Stdout : option File;
  Stderr : option File
}.

(** Go slice operations.  An index or a slice bound outside the slice is a
    run-time panic, which is [None] here. *)
Definition index {A} (s : list A) (i : nat) : option A := s !! i.

Definition assign {A} (s : list A) (i : nat) (v : A) : option (list A) :=
  if decide (i < length s)%nat then Some (<[i := v]> s) else None.

Definition slice_from {A} (s : list A) (i : nat) : option (list A) :=
  if decide (i ≤ length s)%nat then Some (drop i s) else None.

(** [make([]string, n)]: [n] zero values. *)
Definition make (n : nat) : list string := replicate n "".

(** The contents of [dst] after [copy(dst, src)]: the first
    [min (len dst) (len src)] elements are overwritten. *)
Definition copy {A} (dst src : list A) : list A :=
  take (length dst) src ++ drop (length src) dst.

(** [args] after [copy(args[i:], src)]: the destination shares the backing
    array of [args], so the elements of [args] from [i] on are the ones
    overwritten. *)
Definition copy_into {A} (args : list A) (i : nat) (src : list A)
  : option (list A) :=
  dst ← slice_from args i;
  Some (take i args ++ copy dst src).

(** What [restartCmd] reads from the process: [os.Args], [os.Stdout] and
    [os.Stderr]. *)
Record Proc : Type := mkProc {
  os_Args : list string;
  os_Stdout : File;
  os_Stderr : File
}.

(** [func restartCmd(hupArg string) exec.Cmd]; [None] when the function
    panics. *)
Definition restartCmd (p : Proc) (hupArg : string) : option Cmd :=
  binpath ← index (os_Args p) 0;
  args ←
    (if decide (1 < length (os_Args p))%nat then
       let args := make (length (os_Args p) + 1) in
       src ← slice_from (os_Args p) 1;
       args ← copy_into args 2 src;
       a1 ← index args 1;
       args ← (if decide (a1 = hupArg)
               then slice_from args 1
               else assign args 1 hupArg);
       assign args 0 binpath
     else Some [binpath; hupArg]);
  Some {| Path := binpath; Args := args;
          Stdout := Some (os_Stdout p); Stderr := Some (os_Stderr p) |}.

(** ** huprt.go: the handshake *)

Inductive Signal : Type := SIGHUP | SIGTERM.

(** [type Process interface { BeginRestart(cmd *exec.Cmd) error; Kill() }].
    An implementation has a state of its own, which both methods may
    change; [BeginRestart] receives a pointer to the command and may
    change the command as well.  [Kill] has no result.  Both methods are
    modelled as calls that return: an implementation whose method blocks,
    panics or ends the program inside the call is outside the model, and
    what is proved of [Restart] is proved of the calls whose methods
    return. *)
Class Process (P : Type) : Type := {
  BeginRestart : P → Cmd → P * Cmd * option error;
  Kill : P → P
}.

(** [type Hupd struct { Process; RestartArg string; Timeout time.Duration }].
    The embedded interface value is [None] when nil; a [time.Duration] is a
    signed count of nanoseconds. *)
Record Hupd (P : Type) : Type := mkHupd {
  h_Process : option P;
  RestartArg : string;
  Timeout : Z
}.
Arguments mkHupd {P} _ _ _.
Arguments h_Process {P} _.
Arguments RestartArg {P} _.
Arguments Timeout {P} _.

(** The two cases of the [select] in [Restart]. *)
Inductive ready : Type := Sig | Timer.

(** The surroundings of one call: the process, the system calls with the
    results they give, and what happens while [Restart] waits.
    [sigterm_at] is the time, in nanoseconds counted from the moment the
    wait begins, at which a SIGTERM reaches the subscribed channel ([None]:
    it never does; a time that is not positive: it is already buffered in
    the channel).  [select_tie] is the case [select] picks when both of its
    channels are ready at the same instant. *)
Record Env : Type := mkEnv {
  env_proc : Proc;
  os_Getppid : Z;
  unix_Kill : Z → Signal → option error;
  cmd_Start : Cmd → option error;
  sigterm_at : option Z;
  select_tie : ready
}.

(** What a call does to the outside, in order. *)
Inductive event : Type :=
  | EvBeginRestart (cmd : Cmd) (err : option error)  (* h.Process.BeginRestart(&cmd) *)
  | EvNotify (s : Signal)                            (* signal.Notify(sig, s) *)
  | EvStop (s : Signal)                              (* signal.Stop(sig) *)
  | EvStart (cmd : Cmd) (err : option error)         (* cmd.Start() *)
  | EvAfter (d : Z)                                  (* time.After(d) *)
  | EvSelect (timeout : option Z)                    (* the select statement *)
  | EvKill                                           (* h.Process.Kill() *)
  | EvSignal (pid : Z) (s : Signal) (err : option error). (* unix.Kill(pid, s) *)

Definition is_Notify (e : event) : bool :=
  match e with EvNotify _ => true | _ => false end.
Definition is_Stop (e : event) : bool :=
  match e with EvStop _ => true | _ => false end.
Definition is_Start (e : event) : bool :=
  match e with EvStart _ _ => true | _ => false end.
Definition is_After (e : event) : bool :=
  match e with EvAfter _ => true | _ => false end.
Definition is_Select (e : event) : bool :=
  match e with EvSelect _ => true | _ => false end.
Definition is_Kill (e : event) : bool :=
  match e with EvKill => true | _ => false end.

(** The number of events of a kind in a trace. *)
Definition calls (k : event → bool) (tr : list event) : nat :=
  length (List.filter k tr).

(** How a call ends: it returns its [error] result, it panics, or it never
    returns (a receive that blocks for ever). *)
Inductive outcome : Type :=
  | Return (err : option Error)
  | Panic
  | Block.

(** [select { case <-sig: ...; case <-timeout: ... }]: [timeout] is [None]
    for the nil channel, which is never ready, and [Some d] for a timer that
    fires after [d].  The statement is taken to resolve at the instant the
    first of its channels becomes ready; the result is [None] when no case
    ever becomes ready.  Go evaluates the statement some time after
    [time.After] and picks at random among the cases ready at that moment:
    a signal already buffered together with a timer that has already fired
    is such a race, and it is not in this model, which has a choice
    ([tie]) only when the two times coincide.  Nothing below is stated of
    a signal that comes before a timer. *)
Definition select (sig timeout : option Z) (tie : ready) : option ready :=
  match sig, timeout with
  | None, None => None
  | Some _, None => Some Sig
  | None, Some _ => Some Timer
  | Some t, Some d =>
      if decide (t < d) then Some Sig
      else if decide (d < t) then Some Timer
      else Some tie
  end.

(** [func (h *Hupd) Start(fromRestart bool) error] *)
Definition Start {P} (h : Hupd P) (env : Env) (fromRestart : bool)
  : option Error * list event :=
  if negb fromRestart then (None, [])
  else
    let ppid := os_Getppid env in
    match unix_Kill env ppid SIGTERM with
    | Some err =>
        (Some (mkError ErrKillProcess (Some err)), [EvSignal ppid SIGTERM (Some err)])
    | None => (None, [EvSignal ppid SIGTERM None])
    end.

(** [arg := h.RestartArg; if len(arg) == 0 { arg = "-restart" }] *)
Definition restart_arg {P} (h : Hupd P) : string :=
  let arg := RestartArg h in
  if decide (String.length arg = 0%nat) then "-restart" else arg.

Section Handshake.
Context {P : Type} `{Process P}.

(** The state a call of [Restart] threads: the state of the process
    implementation and the events so far. *)
Record State : Type := mkState { st_proc : P; st_trace : list event }.

(** A statement either falls through with a value, or leaves the
    function ([return]), or panics, or blocks for ever. *)
Inductive res (A : Type) : Type :=
  | Val (a : A)
  | Leave (o : outcome).
Arguments Val {A} _.
Arguments Leave {A} _.

Definition M (A : Type) : Type := State → res A * State.

Definition pure {A} (a : A) : M A := λ s, (Val a, s).
Definition bind {A B} (m : M A) (k : A → M B) : M B :=
  λ s, match m s with
       | (Val a, s') => k a s'
       | (Leave o, s') => (Leave o, s')
       end.
Definition leave {A} (o : outcome) : M A := λ s, (Leave o, s).
Definition emit (e : event) : M unit :=
  λ s, (Val tt, mkState (st_proc s) (st_trace s ++ [e])).

Notation "x <- m ;; k" := (bind m (λ x, k))
  (at level 20, m at level 99, k at level 200, only parsing).
Notation "m ;; k" := (bind m (λ _, k))
  (at level 100, k at level 200, only parsing, right associativity).

(** [return e] *)
Definition return_ {A} (e : option Error) : M A := leave (Return e).

(** A slice or index expression that may panic. *)
Definition checked {A} (o : option A) : M A :=
  match o with Some a => pure a | None => leave Panic end.

(** [defer d] followed by [body]: [d] runs when the function returns or
    panics, and not while it is blocked. *)
Definition defer {A} (d : M unit) (body : M A) : M A :=
  λ s, match body s with
       | (Leave Block, s') => (Leave Block, s')
       | (r, s') =>
           match d s' with
           | (Val _, s'') => (r, s'')
           | (Leave o, s'') => (Leave o, s'')
           end
       end.

Definition call_BeginRestart (cmd : Cmd) : M (Cmd * option error) :=
  λ s, let '(p, cmd', err) := BeginRestart (st_proc s) cmd in
       (Val (cmd', err),
        mkState p (st_trace s ++ [EvBeginRestart cmd err])).

(** [h.Process.Kill()].  The method is expected to end the program; the
    [return nil] that follows it in [Restart] is reached when it returns,
    which is what is modelled. *)
Definition call_Kill : M unit :=
  λ s, (Val tt, mkState (Kill (st_proc s)) (st_trace s ++ [EvKill])).

Definition call_Start (env : Env) (cmd : Cmd) : M (option error) :=
  λ s, let err := cmd_Start env cmd in
       (Val err, mkState (st_proc s) (st_trace s ++ [EvStart cmd err])).

(** [time.After(d)] *)
Definition time_After (d : Z) : M (option Z) :=
  emit (EvAfter d) ;; pure (Some d).

Definition do_select (env : Env) (timeout : option Z) : M ready :=
  emit (EvSelect timeout) ;;
  match select (sigterm_at env) timeout (select_tie env) with
  | Some r => pure r
  | None => leave Block
  end.

(** The body of [Restart] after the nil check. *)
Definition Restart_body (h : Hupd P) (env : Env) : M unit :=
  let arg := restart_arg h in
  cmd <- checked (restartCmd (env_proc env) arg) ;;
  r <- call_BeginRestart cmd ;;
  let '(cmd, err) := r in
  (match err with
   | Some err => return_ (Some (mkError ErrRestart (Some err)))
   | None => pure tt
   end) ;;
  emit (EvNotify SIGTERM) ;;
  defer (emit (EvStop SIGTERM))
    (err <- call_Start env cmd ;;
     (match err with
      | Some err => return_ (Some (mkError ErrNewProcess (Some err)))
      | None => pure tt
      end) ;;
     (* Default to nil so it blocks forever on receive, unless there's a
        defined timeout. *)
     timeout <- (if decide (Timeout h > 0)
                 then time_After (Timeout h)
                 else pure None) ;;
     r <- do_select env timeout ;;
     (match r with
      | Sig => call_Kill
      | Timer => return_ (Some (mkError ErrTimeout None))
      end) ;;
     return_ None).

(** [func (h *Hupd) Restart() error]: how the call ends, the process
    implementation afterwards, and the events of the call. *)
Definition Restart (h : Hupd P) (env : Env)
  : outcome * option P * list event :=
  match h_Process h with
  | None => (Return (Some (mkError ErrNoProcess None)), None, [])
  | Some p =>
      match Restart_body h env (mkState p []) with
      | (Leave o, s) => (o, Some (st_proc s), st_trace s)
      | (Val _, s) => (Return None, Some (st_proc s), st_trace s)
      end
  end.

Definition Restart_outcome (h : Hupd P) (env : Env) : outcome :=
  (Restart h env).1.1.
Definition Restart_proc (h : Hupd P) (env : Env) : option P :=
  (Restart h env).1.2.
Definition Restart_trace (h : Hupd P) (env : Env) : list event :=
  (Restart h env).2.

End Handshake.

(** The code of the error a call returned, if it returned one. *)
Definition err_code (o : outcome) : option Z :=
  match o with
  | Return (Some e) => Some (Code e)
  | _ => None
  end.

(** The trace has a [cmd.Start()] that succeeded. *)
Definition spawned (tr : list event) : bool :=
  existsb (λ e, match e with EvStart _ None => true | _ => false end) tr.

(** A process implementation for tests: it counts the calls of its two
    methods, fails [BeginRestart] with [fake_err] when that is set, and
    appends [fake_extra] to the arguments of the command. *)
Record Fake : Type := mkFake {
  begin_calls : nat;
  kill_calls : nat;
  fake_err : option error;
  fake_extra : list string
}.

#[export] Instance Fake_Process : Process Fake := {|
  BeginRestart f cmd :=
    (mkFake (S (begin_calls f)) (kill_calls f) (fake_err f) (fake_extra f),
     mkCmd (Path cmd) (Args cmd ++ fake_extra f) (Stdout cmd) (Stderr cmd),
     fake_err f);
  Kill f := mkFake (begin_calls f) (S (kill_calls f)) (fake_err f) (fake_extra f)
|}.

(** The timer channel of a call: nil unless the timeout is positive. *)
Definition timer_of {P} (h : Hupd P) : option Z :=
  if decide (Timeout h > 0) then Some (Timeout h) else None.

(** [Restart] written out path by path, with the events of each path.  It
    is proved equal to [Restart] below ([Restart_paths_eq]) and serves the
    proofs only. *)
Definition Restart_paths {P} `{Process P} (h : Hupd P) (env : Env)
  : outcome * option P * list event :=
  match h_Process h with
  | None => (Return (Some (mkError ErrNoProcess None)), None, [])
  | Some p =>
      match restartCmd (env_proc env) (restart_arg h) with
      | None => (Panic, Some p, [])
      | Some cmd =>
          let '(p', cmd', err) := BeginRestart p cmd in
          match err with
          | Some err =>
              (Return (Some (mkError ErrRestart (Some err))), Some p',
               [EvBeginRestart cmd (Some err)])
          | None =>
              match cmd_Start env cmd' with
              | Some err =>
                  (Return (Some (mkError ErrNewProcess (Some err))), Some p',
                   [EvBeginRestart cmd None; EvNotify SIGTERM;
                    EvStart cmd' (Some err); EvStop SIGTERM])
              | None =>
                  let pre :=
                    [EvBeginRestart cmd None; EvNotify SIGTERM; EvStart cmd' None]
                    ++ (if decide (Timeout h > 0) then [EvAfter (Timeout h)] else [])
                    ++ [EvSelect (timer_of h)] in
                  match select (sigterm_at env) (timer_of h) (select_tie env) with
                  | Some Sig =>
                      (Return None, Some (Kill p'), pre ++ [EvKill; EvStop SIGTERM])
                  | Some Timer =>
                      (Return (Some (mkError ErrTimeout None)), Some p',
                       pre ++ [EvStop SIGTERM])
                  | None => (Block, Some p', pre)
                  end
              end
          end
      end
  end.

(** Inputs for the examples: a process started as [prog -v], system calls
    that succeed, and a SIGTERM that arrives after [t] nanoseconds or
    never. *)
Definition fake0 : Fake := mkFake 0 0 None [].
Definition proc0 : Proc := mkProc ["prog"; "-v"] (mkFile 1) (mkFile 2).
Definition env0 (t : option Z) : Env :=
  mkEnv proc0 4242 (λ _ _, None) (λ _, None) t Sig.

(** [func (h *Hupd) NotifyRestart() error]: subscribe to SIGHUP, wait for
    one, then [Restart].  [sighup] tells whether a SIGHUP ever reaches the
    subscribed channel; when none does the receive blocks for ever.  The
    deferred [signal.Stop(hup)] runs when [Restart] returns or panics. *)
Definition NotifyRestart {P} `{Process P} (h : Hupd P) (env : Env) (sighup : bool)
  : outcome * option P * list event :=
  let tr := [EvNotify SIGHUP] in
  if sighup then
    let '(o, p, tr') := Restart h env in
    match o with
    | Block => (Block, p, tr ++ tr')
    | _ => (o, p, tr ++ tr' ++ [EvStop SIGHUP])
    end
  else (Block, h_Process h, tr).

Definition is_BeginRestart (e : event) : bool :=
  match e with EvBeginRestart _ _ => true | _ => false end.

(** The parent of a process over its life.  [os.Getppid()] reports the
    parent the process has at the moment of the call: [ppid_at_start] when
    the process begins and [ppid_at_call] when [Start] runs, which is the
    id of the reaper (1 for init) once the first parent has exited. *)
Record Parentage : Type := mkParentage { ppid_at_start : Z; ppid_at_call : Z }.

(** The surroundings of a call of [Start] in a process with this
    parentage, where every signal is delivered. *)
Definition env_of (par : Parentage) : Env :=
  mkEnv proc0 (ppid_at_call par) (λ _ _, None) (λ _, None) None Sig.

(** * Properties *)

(** ** Error rendering *)

Lemma errMessages_unknown (c : Z) : c < 0 ∨ 4 < c → errMessages !! c = None.
Proof.
  intros Hc. unfold errMessages.
  rewrite !lookup_insert_ne
    by (unfold ErrTimeout, ErrNewProcess, ErrKillProcess, ErrRestart,
          ErrNoProcess; lia).
  apply lookup_empty.
Qed.

(** The message [Error()] starts from, read off the code. *)
Lemma Error_Error_unfold (e : Error) :
  Error_Error (Some e) =
    match Inner e with
    | Some inner => default "huprt: unknown error" (errMessages !! Code e)
                    +:+ ": " +:+ error_Error inner
    | None => default "huprt: unknown error" (errMessages !! Code e)
    end.
Proof. unfold Error_Error. by destruct (errMessages !! Code e). Qed.

(** C9: for every [Error] value, [Error()] renders the fixed message of the
    code when the code is one of the five known codes and the fallback
    message "huprt: unknown error" when it is any other code; when a
    wrapped cause is present the rendering is that message, the separator
    ": " and the cause's own message, and when there is none it is the
    message alone. *)
Theorem Error_Error_rendering (e : Error) :
  ∃ msg : string,
    (Code e = ErrTimeout → msg = "huprt: process restart timed out") ∧
    (Code e = ErrNewProcess → msg = "huprt: error starting new process") ∧
    (Code e = ErrKillProcess → msg = "huprt: error killing parent process") ∧
    (Code e = ErrRestart → msg = "huprt: restart error") ∧
    (Code e = ErrNoProcess → msg = "huprt: Hupd.Process is nil") ∧
    (Code e < 0 ∨ 4 < Code e → msg = "huprt: unknown error") ∧
    (∀ inner, Inner e = Some inner →
       Error_Error (Some e) = msg +:+ ": " +:+ error_Error inner) ∧
    (Inner e = None → Error_Error (Some e) = msg).
Proof.
  exists (default "huprt: unknown error" (errMessages !! Code e)).
  repeat split.
  1-5: by intros ->.
  - intros Hc. by rewrite errMessages_unknown.
  - intros inner Hin. by rewrite Error_Error_unfold, Hin.
  - intros Hin. by rewrite Error_Error_unfold, Hin.
Qed.

Example Error_Error_known :
  Error_Error (Some (mkError ErrRestart (Some (mkerror "bind: in use"))))
  = "huprt: restart error: bind: in use".
Proof. reflexivity. Qed.

Example Error_Error_fallback :
  Error_Error (Some (mkError 17 None)) = "huprt: unknown error".
Proof. reflexivity. Qed.

(** ** Slices *)

Section Slices.
Context {A : Type}.
Implicit Types (s src dst : list A) (i : nat).

Lemma slice_from_ok s i : (i ≤ length s)%nat → slice_from s i = Some (drop i s).
Proof. intros Hi. unfold slice_from. by rewrite decide_True. Qed.

Lemma assign_ok s i v : (i < length s)%nat → assign s i v = Some (<[i := v]> s).
Proof. intros Hi. unfold assign. by rewrite decide_True. Qed.

Lemma copy_same_length dst src : length dst = length src → copy dst src = src.
Proof.
  intros Hlen. unfold copy.
  rewrite Hlen, firstn_all, drop_ge by lia. apply app_nil_r.
Qed.
End Slices.

(** [args] in [restartCmd] after [make] and [copy]: two empty strings, then
    the arguments of the process. *)
Lemma copy_into_make (src : list string) :
  copy_into (make (length src + 2)) 2 src = Some ("" :: "" :: src).
Proof.
  unfold copy_into, make. rewrite slice_from_ok by (rewrite length_replicate; lia).
  replace (length src + 2)%nat with (S (S (length src))) by lia.
  cbn [replicate drop take mbind option_bind].
  rewrite drop_0, copy_same_length by apply length_replicate. reflexivity.
Qed.

(** ** The argument list of the replacement *)

Example restartCmd_ex :
  Args <$> restartCmd (mkProc ["prog"; "-v"; "x"] (mkFile 1) (mkFile 2)) "-restart"
  = Some ["prog"; "-restart"; "-v"; "x"].
Proof. vm_compute. reflexivity. Qed.

(** With a marker that is not empty, [restartCmd] puts the marker in front
    of all the arguments of the process, whatever the first of them is. *)
Lemma restartCmd_Args (p : Proc) (bin : string) (rest : list string) (hupArg : string) :
  os_Args p = bin :: rest → hupArg ≠ "" →
  Args <$> restartCmd p hupArg = Some (bin :: hupArg :: rest).
Proof.
  intros Hargs Hne. unfold restartCmd. rewrite Hargs.
  destruct rest as [|a rest]; [reflexivity|].
  cbn [index lookup list_lookup mbind option_bind].
  rewrite decide_True by (cbn; lia).
  rewrite slice_from_ok by (cbn; lia). cbn [drop mbind option_bind].
  replace (length (bin :: a :: rest) + 1)%nat with (length (a :: rest) + 2)%nat
    by (cbn; lia).
  rewrite copy_into_make. cbn [mbind option_bind index lookup list_lookup].
  rewrite decide_False by congruence.
  reflexivity.
Qed.

(** The comparison [args[1] == hupArg] reads the slot that [copy] left
    empty, so it succeeds for the empty marker only; the arguments are then
    passed on without a marker. *)
Lemma restartCmd_Args_empty (p : Proc) (bin a : string) (rest : list string) :
  os_Args p = bin :: a :: rest →
  Args <$> restartCmd p "" = Some (bin :: a :: rest).
Proof.
  intros Hargs. unfold restartCmd. rewrite Hargs.
  cbn [index lookup list_lookup mbind option_bind].
  rewrite decide_True by (cbn; lia).
  rewrite slice_from_ok by (cbn; lia). cbn [drop mbind option_bind].
  replace (length (bin :: a :: rest) + 1)%nat with (length (a :: rest) + 2)%nat
    by (cbn; lia).
  rewrite copy_into_make. reflexivity.
Qed.

(** The path and the streams of the command. *)
Lemma restartCmd_Path (p : Proc) (hupArg : string) (cmd : Cmd) :
  restartCmd p hupArg = Some cmd →
  index (os_Args p) 0 = Some (Path cmd) ∧
  Stdout cmd = Some (os_Stdout p) ∧ Stderr cmd = Some (os_Stderr p).
Proof.
  unfold restartCmd. intros Hcmd.
  destruct (index (os_Args p) 0) as [bin|]; [|discriminate].
  cbn [mbind option_bind] in Hcmd.
  match type of Hcmd with
  | (?m ≫= _) = _ => destruct m as [args|]; [|discriminate]
  end.
  cbn [mbind option_bind] in Hcmd. by inversion Hcmd.
Qed.

(** X3: [restartCmd] panics exactly when the process has no [os.Args[0]]. *)
Lemma restartCmd_panics (p : Proc) (hupArg : string) :
  restartCmd p hupArg = None ↔ os_Args p = [].
Proof.
  split.
  - destruct (os_Args p) as [|bin rest] eqn:Hargs; [done|]. intros Hnone.
    destruct (decide (hupArg = "")) as [->|Hne].
    + destruct rest as [|a rest].
      * unfold restartCmd in Hnone. rewrite Hargs in Hnone. discriminate.
      * pose proof (restartCmd_Args_empty p bin a rest Hargs) as Hr.
        rewrite Hnone in Hr. discriminate.
    + pose proof (restartCmd_Args p bin rest hupArg Hargs Hne) as Hr.
      rewrite Hnone in Hr. discriminate.
  - intros Hargs. unfold restartCmd. by rewrite Hargs.
Qed.

(** C1: at the arguments [prog -restart x] and the marker [-restart], the
    first argument of the process already equals the marker, and the list
    [restartCmd] builds carries the marker twice, at index 1 and again at
    index 2, where the marker should have been reused and appear once. *)
Theorem restartCmd_marker_twice :
  Args <$> restartCmd (mkProc ["prog"; "-restart"; "x"] (mkFile 1) (mkFile 2))
             "-restart"
  = Some ["prog"; "-restart"; "-restart"; "x"].
Proof. vm_compute. reflexivity. Qed.

(** The same for every process whose first argument is the marker. *)
Lemma restartCmd_marker_duplicated (p : Proc) (bin hupArg : string) (rest : list string) :
  os_Args p = bin :: hupArg :: rest → hupArg ≠ "" →
  Args <$> restartCmd p hupArg = Some (bin :: hupArg :: hupArg :: rest).
Proof. intros Hargs Hne. by apply restartCmd_Args. Qed.

(** A process that has an [os.Args[0]] gets a command, whatever the
    marker. *)
Lemma restartCmd_is_Some (p : Proc) (bin : string) (rest : list string)
    (hupArg : string) :
  os_Args p = bin :: rest → is_Some (restartCmd p hupArg).
Proof.
  intros Hargs.
  destruct (restartCmd p hupArg) as [cmd|] eqn:Hcmd; [by eexists|].
  destruct (decide (hupArg = "")) as [->|Hne].
  - destruct rest as [|a rest].
    + unfold restartCmd in Hcmd. rewrite Hargs in Hcmd. discriminate.
    + pose proof (restartCmd_Args_empty p bin a rest Hargs) as Hr.
      rewrite Hcmd in Hr. discriminate.
  - pose proof (restartCmd_Args p bin rest hupArg Hargs Hne) as Hr.
    rewrite Hcmd in Hr. discriminate.
Qed.

(** X4: For every marker, the empty one too, a process that has an
    [os.Args[0]] gets a command: its path is [os.Args[0]] and its standard
    output and standard error are the ones of the process itself. *)
Theorem restartCmd_inherits (p : Proc) (bin : string) (rest : list string)
    (hupArg : string) :
  os_Args p = bin :: rest →
  ∃ cmd, restartCmd p hupArg = Some cmd ∧
         Path cmd = bin ∧
         Stdout cmd = Some (os_Stdout p) ∧
         Stderr cmd = Some (os_Stderr p).
Proof.
  intros Hargs.
  destruct (restartCmd_is_Some p bin rest hupArg Hargs) as [cmd Hcmd].
  exists cmd. destruct (restartCmd_Path p hupArg cmd Hcmd) as (Hpath & Hout & Herr).
  rewrite Hargs in Hpath. cbn in Hpath. by inversion Hpath.
Qed.

(** The argument list of a command built with a marker that is not
    empty. *)
Lemma restartCmd_Some_Args (p : Proc) (hupArg : string) (cmd : Cmd) :
  restartCmd p hupArg = Some cmd → hupArg ≠ "" →
  ∃ bin rest, os_Args p = bin :: rest ∧ Path cmd = bin ∧
              Args cmd = bin :: hupArg :: rest.
Proof.
  intros Hcmd Hm. destruct (os_Args p) as [|bin rest] eqn:Hargs.
  - unfold restartCmd in Hcmd. rewrite Hargs in Hcmd. discriminate.
  - exists bin, rest. split; [done|].
    destruct (restartCmd_Path p hupArg cmd Hcmd) as (Hpath & _).
    rewrite Hargs in Hpath. cbn in Hpath.
    pose proof (restartCmd_Args p bin rest hupArg Hargs Hm) as HA.
    rewrite Hcmd in HA. cbn in HA. split; congruence.
Qed.

(** X1: With a marker that is not empty, the argument list of the command has
    the path of the executable, [os.Args[0]], at index 0 and the marker at
    index 1. *)
Theorem restartCmd_marker_index (p : Proc) (hupArg : string) :
  os_Args p ≠ [] → hupArg ≠ "" →
  ∃ cmd, restartCmd p hupArg = Some cmd ∧
         index (Args cmd) 0 = Some (Path cmd) ∧
         index (Args cmd) 0 = index (os_Args p) 0 ∧
         index (Args cmd) 1 = Some hupArg.
Proof.
  intros Hne Hm. destruct (os_Args p) as [|bin rest] eqn:Hargs; [done|].
  destruct (restartCmd_is_Some p bin rest hupArg Hargs) as [cmd Hcmd].
  destruct (restartCmd_Some_Args p hupArg cmd Hcmd Hm)
    as (bin' & rest' & Hargs' & Hpath & HA).
  rewrite Hargs in Hargs'. injection Hargs' as <- <-.
  exists cmd. rewrite HA, Hpath. by repeat split.
Qed.

(** X2: When the first argument of the process is not the marker (or there is
    no argument), the marker is put in front of the arguments, which follow
    unchanged and in order. *)
Theorem restartCmd_prepends (p : Proc) (bin : string) (rest : list string)
    (hupArg : string) :
  os_Args p = bin :: rest → hupArg ≠ "" → head rest ≠ Some hupArg →
  Args <$> restartCmd p hupArg = Some (bin :: hupArg :: rest).
Proof. intros Hargs Hm _. by apply restartCmd_Args. Qed.

(** Every message of the table starts with the name of the package. *)
Lemma errMessages_prefix (c : Z) (m : string) :
  errMessages !! c = Some m → ∃ tail, m = "huprt: " +:+ tail.
Proof.
  unfold errMessages.
  repeat (rewrite lookup_insert; case_decide; [intros [= <-]; eauto|]).
  by rewrite lookup_empty.
Qed.

(** X5: The rendering of every [*Error], the nil pointer and the unknown codes
    included, starts with "huprt: ". *)
Theorem Error_Error_prefix (e : option Error) :
  ∃ tail, Error_Error e = "huprt: " +:+ tail.
Proof.
  destruct e as [[c inner]|]; [|by eexists].
  unfold Error_Error. cbn [Code Inner].
  destruct (errMessages !! c) as [m|] eqn:Hm.
  - destruct (errMessages_prefix c m Hm) as [tail ->].
    destruct inner; eexists; cbn; reflexivity.
  - destruct inner; eexists; cbn; reflexivity.
Qed.

(** X6: Two errors without a cause whose codes are known render the same only
    when their codes are the same: the message identifies the code. *)
Theorem Error_Error_injective (e1 e2 : Error) :
  0 ≤ Code e1 ≤ 4 → 0 ≤ Code e2 ≤ 4 →
  Inner e1 = None → Inner e2 = None →
  Error_Error (Some e1) = Error_Error (Some e2) → Code e1 = Code e2.
Proof.
  destruct e1 as [c1 i1], e2 as [c2 i2]. cbn [Code Inner].
  intros H1 H2 -> ->.
  assert (c1 = 0 ∨ c1 = 1 ∨ c1 = 2 ∨ c1 = 3 ∨ c1 = 4) as Hc1 by lia.
  assert (c2 = 0 ∨ c2 = 1 ∨ c2 = 2 ∨ c2 = 3 ∨ c2 = 4) as Hc2 by lia.
  clear H1 H2.
  destruct Hc1 as [->|[->|[->|[->| ->]]]];
    destruct Hc2 as [->|[->|[->|[->| ->]]]];
    vm_compute; intros Heq; (reflexivity || discriminate Heq).
Qed.

(** ** Start *)

(** C7, as amended: [Start(false)] returns nil and does nothing;
    [Start(true)] sends SIGTERM, once, to the parent process id that
    [os.Getppid()] reports at the call (no id is recorded when the process
    starts), and returns nil when the signal was delivered and a
    [KillProcess] error that wraps the failure of the system call when it
    was not. *)
Theorem Start_spec {P} (h : Hupd P) (env : Env) :
  Start h env false = (None, []) ∧
  (unix_Kill env (os_Getppid env) SIGTERM = None →
     Start h env true = (None, [EvSignal (os_Getppid env) SIGTERM None])) ∧
  (∀ err, unix_Kill env (os_Getppid env) SIGTERM = Some err →
     Start h env true =
       (Some (mkError ErrKillProcess (Some err)),
        [EvSignal (os_Getppid env) SIGTERM (Some err)])).
Proof.
  unfold Start. cbn [negb].
  split; [reflexivity|]. split.
  - by intros ->.
  - by intros err ->.
Qed.

(** C7, as stated, fails: a process started by 4242 whose parent has
    exited and which now belongs to init sends its SIGTERM to 1, the
    parent at the call, and not to 4242, the parent it had when it
    started. *)
Lemma Start_recorded_parent_counterexample :
  ¬ (∀ par : Parentage,
       ∃ err, (Start (mkHupd (None : option Fake) "" 0) (env_of par) true).2 =
              [EvSignal (ppid_at_start par) SIGTERM err]).
Proof.
  intros Hrec. destruct (Hrec (mkParentage 4242 1)) as [err Herr].
  vm_compute in Herr. discriminate Herr.
Qed.

(** ** Restart *)

Section HandshakeFacts.
Context {P : Type} `{Process P}.
Implicit Types (h : Hupd P) (env : Env) (tr : list event).

Lemma Restart_paths_eq h env : Restart h env = Restart_paths h env.
Proof.
  unfold Restart, Restart_paths, Restart_body, timer_of.
  destruct (h_Process h) as [p|]; [|reflexivity].
  destruct (restartCmd (env_proc env) (restart_arg h)) as [cmd|]; [|reflexivity].
  unfold bind, checked, pure, call_BeginRestart. cbn [st_proc st_trace].
  destruct (BeginRestart p cmd) as [[p' cmd'] [err|]]; [reflexivity|].
  unfold defer, bind, emit, call_Start. cbn [st_proc st_trace app].
  destruct (cmd_Start env cmd') as [err|]; [reflexivity|].
  destruct (decide (Timeout h > 0)); unfold time_After, do_select, bind, emit, pure;
    cbn [st_proc st_trace app];
    destruct (select _ _ _) as [[|]|]; reflexivity.
Qed.

(** Case analysis on the path a call takes. *)
Ltac paths h env :=
  unfold Restart_outcome, Restart_trace, Restart_proc;
  rewrite (Restart_paths_eq h env); unfold Restart_paths;
  destruct (h_Process h) as [p|] eqn:Hproc;
    [ destruct (restartCmd (env_proc env) (restart_arg h)) as [cmd|] eqn:Hcmd;
      [ destruct (BeginRestart p cmd) as [[p' cmd'] [err|]] eqn:Hbegin;
        [ | destruct (cmd_Start env cmd') as [err|] eqn:Hstart;
            [ | unfold timer_of;
                destruct (decide (Timeout h > 0)) as [Hpos|Hpos];
                destruct (select (sigterm_at env) _ (select_tie env))
                  as [[|]|] eqn:Hsel ] ]
      | ]
    | ];
  cbn [fst snd app].

(** The error codes as numbers, to tell them apart. *)
Ltac codes :=
  unfold ErrTimeout, ErrNewProcess, ErrKillProcess, ErrRestart, ErrNoProcess in *.

(** C8: [Restart] returns a [NoProcess] error if and only if the
    [Process] field is nil, whatever [RestartArg] and [Timeout] are;
    the call then does nothing else: it has no events. *)
Theorem Restart_NoProcess h env :
  (err_code (Restart_outcome h env) = Some ErrNoProcess ↔ h_Process h = None) ∧
  (h_Process h = None →
     Restart h env = (Return (Some (mkError ErrNoProcess None)), None, [])).
Proof.
  split.
  - paths h env; cbn; split; try done; intros [= ?]; done.
  - intros Hnil. unfold Restart. by rewrite Hnil.
Qed.
(** C4: [Restart] returns a [Restart] error that wraps a cause if and only
    if its call of [BeginRestart] returned that cause as its error; the
    call of [BeginRestart] is then the only event of [Restart]: the
    command is not started and no signal subscription is made. *)
Theorem Restart_BeginRestart_error h env :
  (∀ cause,
     Restart_outcome h env = Return (Some (mkError ErrRestart (Some cause))) ↔
     ∃ cmd, In (EvBeginRestart cmd (Some cause)) (Restart_trace h env)) ∧
  (∀ p cmd cause,
     h_Process h = Some p →
     restartCmd (env_proc env) (restart_arg h) = Some cmd →
     ((BeginRestart p cmd).2 = Some cause ↔
      Restart_outcome h env = Return (Some (mkError ErrRestart (Some cause))))) ∧
  (err_code (Restart_outcome h env) = Some ErrRestart →
     (∃ cmd cause,
        Restart_outcome h env = Return (Some (mkError ErrRestart (Some cause))) ∧
        Restart_trace h env = [EvBeginRestart cmd (Some cause)]) ∧
     calls is_Start (Restart_trace h env) = 0%nat ∧
     calls is_Notify (Restart_trace h env) = 0%nat).
Proof.
  split; [|split].
  - intros cause.
    paths h env; cbn; (split; [intros [= <-] | intros [c Hin]]);
      try discriminate; eauto; intuition congruence.
  - intros p0 cmd0 cause Hp Hc. revert Hp Hc.
    paths h env; cbn; intros [= <-] [= <-]; rewrite Hbegin; cbn;
      codes; split; congruence.
  - paths h env; cbn; intros Hc; try (by codes).
    repeat split; eauto.
Qed.

(** C5: [Restart] returns a [NewProcess] error that wraps a cause if and
    only if [BeginRestart] succeeded and starting the command then failed
    with that cause; the events of the call are then [BeginRestart], the
    subscription, the failed start and the release of the subscription, in
    this order and nothing else: no wait and no [Kill]. *)
Theorem Restart_spawn_error h env :
  (∀ cause,
     Restart_outcome h env = Return (Some (mkError ErrNewProcess (Some cause))) ↔
     ∃ cmd0 cmd, In (EvBeginRestart cmd0 None) (Restart_trace h env) ∧
                 In (EvStart cmd (Some cause)) (Restart_trace h env)) ∧
  (err_code (Restart_outcome h env) = Some ErrNewProcess →
     (∃ cmd0 cmd cause,
        Restart_outcome h env = Return (Some (mkError ErrNewProcess (Some cause))) ∧
        Restart_trace h env =
          [EvBeginRestart cmd0 None; EvNotify SIGTERM;
           EvStart cmd (Some cause); EvStop SIGTERM]) ∧
     calls is_Select (Restart_trace h env) = 0%nat ∧
     calls is_Kill (Restart_trace h env) = 0%nat).
Proof.
  split.
  - intros cause.
    paths h env; cbn;
      (split; [intros [= <-] | intros (c0 & c & Hb & Hs)]);
      try discriminate; eauto 10; intuition congruence.
  - paths h env; cbn; intros Hc; try (by codes).
    repeat split; eauto 10.
Qed.

(** C6: in every call of [Restart] that reaches [cmd.Start()], the trace
    begins with the successful [BeginRestart], then the subscription to
    SIGTERM, then the start, and there is no other subscription; and
    whenever the call returns (with nil, with the error of the start or
    with the timeout) the last event is the release of the
    subscription. *)
Theorem Restart_subscription h env :
  (∃ cmd err, In (EvStart cmd err) (Restart_trace h env)) →
  ∃ cmd0 cmd err rest,
    Restart_trace h env =
      EvBeginRestart cmd0 None :: EvNotify SIGTERM :: EvStart cmd err :: rest ∧
    calls is_Notify rest = 0%nat ∧
    calls is_Start rest = 0%nat ∧
    (∀ e, Restart_outcome h env = Return e →
       ∃ mid, rest = mid ++ [EvStop SIGTERM] ∧ calls is_Stop mid = 0%nat).
Proof.
  paths h env; cbn; intros (c & e & Hin); try (intuition congruence).
  - exists cmd, cmd', (Some err), [EvStop SIGTERM]. repeat split.
    intros ? _. by exists [].
  - exists cmd, cmd', None, [EvAfter (Timeout h); EvSelect (Some (Timeout h));
                             EvKill; EvStop SIGTERM]. repeat split.
    intros ? _. by exists [EvAfter (Timeout h); EvSelect (Some (Timeout h)); EvKill].
  - exists cmd, cmd', None, [EvAfter (Timeout h); EvSelect (Some (Timeout h));
                             EvStop SIGTERM]. repeat split.
    intros ? _. by exists [EvAfter (Timeout h); EvSelect (Some (Timeout h))].
  - exists cmd, cmd', None, [EvAfter (Timeout h); EvSelect (Some (Timeout h))].
    repeat split. discriminate.
  - exists cmd, cmd', None, [EvSelect None; EvKill; EvStop SIGTERM]. repeat split.
    intros ? _. by exists [EvSelect None; EvKill].
  - exists cmd, cmd', None, [EvSelect None; EvStop SIGTERM]. repeat split.
    intros ? _. by exists [EvSelect None].
  - exists cmd, cmd', None, [EvSelect None]. repeat split. discriminate.
Qed.

(** [select] with a timer and a signal that comes after the timer, or
    never, takes the timer. *)
Lemma select_timer (sig : option Z) (d : Z) (tie : ready) :
  (sig = None ∨ ∃ t, sig = Some t ∧ d < t) →
  select sig (Some d) tie = Some Timer.
Proof.
  intros [-> | (t & -> & Ht)]; [reflexivity|].
  unfold select. rewrite decide_False by lia. by rewrite decide_True by lia.
Qed.

(** [select] on the nil timer channel takes the signal, and blocks when
    the signal never comes. *)
Lemma select_nil_timer (sig : option Z) (tie : ready) :
  select sig None tie = (λ _, Sig) <$> sig.
Proof. by destruct sig. Qed.

(** C2: with a timeout [D > 0], when the command was started and no
    SIGTERM arrives within [D] (it arrives later than [D], or never),
    [Restart] returns the [Timeout] error and never calls [Kill]. *)
Theorem Restart_timeout h env :
  Timeout h > 0 →
  spawned (Restart_trace h env) = true →
  (sigterm_at env = None ∨ ∃ t, sigterm_at env = Some t ∧ Timeout h < t) →
  Restart_outcome h env = Return (Some (mkError ErrTimeout None)) ∧
  calls is_Kill (Restart_trace h env) = 0%nat ∧
  (∀ p, h_Process h = Some p → ∃ cmd,
     restartCmd (env_proc env) (restart_arg h) = Some cmd ∧
     Restart_proc h env = Some (BeginRestart p cmd).1.1).
Proof.
  intros HD Hsp Hsig. revert Hsp.
  pose proof (select_timer _ _ (select_tie env) Hsig) as Hsel'.
  paths h env; cbn; try discriminate; try (exfalso; lia); intros _.
  repeat split. intros ? [= <-]. exists cmd. by rewrite Hbegin.
Qed.

(** A [select] that takes the signal case has a signal. *)
Lemma select_Sig (sig timeout : option Z) (tie : ready) :
  select sig timeout tie = Some Sig → is_Some sig.
Proof. destruct sig, timeout; cbn; try discriminate; by eexists. Qed.

(** C3: [Restart] calls [Kill] at most once, and when it calls it the
    result is nil; it calls it only on the success transition: the command
    was started, a SIGTERM was delivered, and [Kill] comes right after the
    wait and before the release of the subscription; with the timeout 0,
    when the command was started and SIGTERM arrives, [Restart] returns
    nil and calls [Kill] exactly once, on the process as [BeginRestart]
    left it. *)
Theorem Restart_kill h env :
  (calls is_Kill (Restart_trace h env) ≤ 1)%nat ∧
  (calls is_Kill (Restart_trace h env) = 1%nat ↔
   Restart_outcome h env = Return None) ∧
  (calls is_Kill (Restart_trace h env) = 1%nat →
   spawned (Restart_trace h env) = true ∧
   is_Some (sigterm_at env) ∧
   ∃ pre, Restart_trace h env =
            pre ++ [EvSelect (timer_of h); EvKill; EvStop SIGTERM] ∧
          calls is_Select pre = 0%nat) ∧
  (Timeout h = 0 →
   spawned (Restart_trace h env) = true →
   is_Some (sigterm_at env) →
   Restart_outcome h env = Return None ∧
   calls is_Kill (Restart_trace h env) = 1%nat ∧
   (∀ p, h_Process h = Some p → ∃ cmd,
      restartCmd (env_proc env) (restart_arg h) = Some cmd ∧
      Restart_proc h env = Some (Kill (BeginRestart p cmd).1.1))).
Proof.
  split; [|split; [|split]].
  - paths h env; cbn; lia.
  - paths h env; cbn; split; congruence.
  - paths h env; cbn; intros Hk; try discriminate Hk;
      (split; [reflexivity|]);
      (split; [by apply (select_Sig _ _ _ Hsel)|]).
    + by exists [EvBeginRestart cmd None; EvNotify SIGTERM; EvStart cmd' None;
                 EvAfter (Timeout h)].
    + by exists [EvBeginRestart cmd None; EvNotify SIGTERM; EvStart cmd' None].
  - intros H0 Hsp [t Ht]. revert Hsp.
    paths h env; cbn; try discriminate; try (exfalso; lia); intros _;
      rewrite select_nil_timer, Ht in Hsel; try discriminate.
    repeat split. intros ? [= <-]. exists cmd. by rewrite Hbegin.
Qed.

(** C10: with a negative timeout [Restart] does what it does with the
    timeout 0, event for event; once the command is started it arms no
    timer and waits on the signal alone, for ever when the signal never
    comes; and a [Timeout] error is returned only by a call whose timeout
    is positive. *)
Theorem Restart_negative_timeout h env :
  (Timeout h < 0 →
     Restart h env = Restart (mkHupd (h_Process h) (RestartArg h) 0) env) ∧
  (Timeout h < 0 → spawned (Restart_trace h env) = true →
     In (EvSelect None) (Restart_trace h env) ∧
     calls is_After (Restart_trace h env) = 0%nat ∧
     (sigterm_at env = None → Restart_outcome h env = Block) ∧
     (is_Some (sigterm_at env) → Restart_outcome h env = Return None)) ∧
  (err_code (Restart_outcome h env) = Some ErrTimeout → Timeout h > 0).
Proof.
  split; [|split].
  - intros Hneg. rewrite !Restart_paths_eq. unfold Restart_paths, timer_of.
    cbn [h_Process Timeout]. change (restart_arg (mkHupd _ _ _)) with (restart_arg h).
    repeat case_decide; try lia. reflexivity.
  - intros Hneg Hsp. revert Hsp.
    paths h env; cbn; try discriminate; try (exfalso; lia); intros _;
      rewrite select_nil_timer in Hsel;
      destruct (sigterm_at env) as [t|]; try discriminate;
      (repeat split; try tauto; try (by intros [? [=]]); try discriminate).
  - paths h env; cbn; try discriminate; try done.
    all: rewrite select_nil_timer in Hsel; destruct (sigterm_at env); discriminate.
Qed.

(** ** Restart: what the claims leave out *)

(** The marker of a call is never empty: it is [RestartArg], and
    "-restart" when [RestartArg] is empty. *)
Lemma restart_arg_spec h :
  restart_arg h ≠ "" ∧
  (RestartArg h = "" → restart_arg h = "-restart") ∧
  (RestartArg h ≠ "" → restart_arg h = RestartArg h).
Proof.
  unfold restart_arg. case_decide as Hlen.
  - repeat split; [done|]. intros Hne. by destruct (RestartArg h).
  - repeat split.
    + intros Heq. rewrite Heq in Hlen. by apply Hlen.
    + intros Heq. rewrite Heq in Hlen. by destruct Hlen.
Qed.

(** With a timer armed, [select] always takes a case. *)
Lemma select_timer_ready (sig : option Z) (d : Z) (tie : ready) :
  is_Some (select sig (Some d) tie).
Proof. destruct sig; unfold select; repeat case_decide; by eexists. Qed.

(** X7: when a process is configured and [os.Args] is empty, [Restart]
    panics in [restartCmd], which reads [os.Args[0]]; the panic comes
    before any call: there are no events and the process implementation
    is untouched. *)
Theorem Restart_panics h env :
  is_Some (h_Process h) → os_Args (env_proc env) = [] →
  Restart_outcome h env = Panic ∧
  Restart_trace h env = [] ∧ Restart_proc h env = h_Process h.
Proof.
  intros [q Hq] Hargs. revert Hq.
  assert (restartCmd (env_proc env) (restart_arg h) = None) as Hnone.
  { unfold restartCmd. by rewrite Hargs. }
  paths h env; cbn; intros [= <-]; try discriminate Hnone. done.
Qed.

(** X8: [BeginRestart] is called exactly when a process is configured and
    [os.Args] is not empty; it is then the first event of the call and is
    called once. *)
Theorem Restart_BeginRestart_first h env :
  (Restart_trace h env ≠ [] ↔
   is_Some (h_Process h) ∧ os_Args (env_proc env) ≠ []) ∧
  (∀ e rest, Restart_trace h env = e :: rest →
     is_BeginRestart e = true ∧ calls is_BeginRestart rest = 0%nat).
Proof.
  split.
  - paths h env; cbn;
      (split; [intros Hne | intros [[? Hs] Hargs]]); try done.
    all: try (split; [by eexists|]; intros Hargs;
              unfold restartCmd in Hcmd; rewrite Hargs in Hcmd; discriminate).
    destruct (os_Args (env_proc env)) as [|bin rest] eqn:Hargs'; [done|].
    destruct (restartCmd_is_Some _ bin rest (restart_arg h) Hargs') as [c Hc].
    congruence.
  - intros e rest. paths h env; cbn; intros [= <- <-]; by split.
Qed.

(** X9: The command handed to [BeginRestart] is the one [restartCmd] builds for
    the marker of the call, which is never empty and is "-restart" by
    default: its path is [os.Args[0]] and its argument at index 1 is the
    marker. *)
Theorem Restart_BeginRestart_cmd h env (c : Cmd) (r : option error) :
  In (EvBeginRestart c r) (Restart_trace h env) →
  restartCmd (env_proc env) (restart_arg h) = Some c ∧
  index (os_Args (env_proc env)) 0 = Some (Path c) ∧
  index (Args c) 0 = Some (Path c) ∧
  index (Args c) 1 = Some (restart_arg h) ∧
  (RestartArg h = "" → index (Args c) 1 = Some "-restart") ∧
  (RestartArg h ≠ "" → index (Args c) 1 = Some (RestartArg h)).
Proof.
  intros Hin.
  destruct (restart_arg_spec h) as (Hne & Hdef & Hset).
  assert (restartCmd (env_proc env) (restart_arg h) = Some c) as Hc.
  { revert Hin. paths h env; cbn; try (case_decide; cbn);
      intros Hin; intuition congruence. }
  destruct (restartCmd_Some_Args _ _ _ Hc Hne) as (bin & rest & Hargs & Hpath & HA).
  rewrite HA, Hargs, Hpath. split_and!; try done.
  - intros Hempty. by rewrite <- Hdef.
  - intros Hfull. by rewrite <- Hset.
Qed.

(** X10: The command that is started is the command as [BeginRestart] left it,
    with the changes the process implementation made to it, and it is
    started only after [BeginRestart] returned no error. *)
Theorem Restart_Start_cmd h env (q : P) (c0 c : Cmd) (r : option error) :
  h_Process h = Some q →
  restartCmd (env_proc env) (restart_arg h) = Some c0 →
  In (EvStart c r) (Restart_trace h env) →
  c = (BeginRestart q c0).1.2 ∧
  (BeginRestart q c0).2 = None ∧
  r = cmd_Start env c.
Proof.
  intros Hq Hc. revert Hq Hc.
  paths h env; cbn; try (case_decide; cbn); intros [= <-] [= <-] Hin;
    rewrite Hbegin; cbn; intuition congruence.
Qed.

(** X11: Every error [Restart] returns carries one of the codes [NoProcess],
    [Restart], [NewProcess] and [Timeout], never [KillProcess]; it wraps a
    cause exactly under [Restart] and [NewProcess]; and its code has a
    message in the table, so it never renders as an unknown error. *)
Theorem Restart_error_codes h env (e : Error) :
  Restart_outcome h env = Return (Some e) →
  (Code e = ErrNoProcess ∨ Code e = ErrRestart ∨
   Code e = ErrNewProcess ∨ Code e = ErrTimeout) ∧
  (is_Some (Inner e) ↔ Code e = ErrRestart ∨ Code e = ErrNewProcess) ∧
  is_Some (errMessages !! Code e).
Proof.
  paths h env; cbn; intros [= <-]; cbn; codes;
    (split; [tauto|]); (split; [|by eexists]);
    (split; [intros [? Hs] | intros Hc]); try discriminate; eauto; lia.
Qed.

(** X12: once the command is started, a call whose timeout is not
    positive and to which no SIGTERM ever comes never returns: it calls
    no [Kill] and keeps its subscription; and in a call whose timeout is
    positive the wait ends: [Kill] is called or the [Timeout] error is
    returned. *)
Theorem Restart_blocks h env :
  (spawned (Restart_trace h env) = true → Timeout h ≤ 0 →
   sigterm_at env = None →
   Restart_outcome h env = Block ∧
   calls is_Kill (Restart_trace h env) = 0%nat ∧
   calls is_Stop (Restart_trace h env) = 0%nat) ∧
  (spawned (Restart_trace h env) = true → Timeout h > 0 →
   calls is_Kill (Restart_trace h env) = 1%nat ∨
   Restart_outcome h env = Return (Some (mkError ErrTimeout None))).
Proof.
  split.
  - intros Hsp Hle Hsig. revert Hsp.
    paths h env; cbn; try discriminate; try (exfalso; lia); intros _;
      rewrite select_nil_timer, Hsig in Hsel; try discriminate Hsel.
    done.
  - intros Hsp Hgt. revert Hsp.
    pose proof (select_timer_ready (sigterm_at env) (Timeout h) (select_tie env))
      as [r Hr].
    paths h env; cbn; try discriminate; try (exfalso; lia); intros _;
      (by left) || (by right).
Qed.

(** X14: The timer is armed at most once, with the configured timeout, and
    exactly when the command was started and the timeout is positive: the
    wait for [BeginRestart] and the start itself are not timed. *)
Theorem Restart_timer h env :
  (calls is_After (Restart_trace h env) ≤ 1)%nat ∧
  (calls is_After (Restart_trace h env) = 1%nat ↔
   spawned (Restart_trace h env) = true ∧ Timeout h > 0) ∧
  (∀ d, In (EvAfter d) (Restart_trace h env) → d = Timeout h).
Proof.
  split_and!.
  - paths h env; cbn; lia.
  - paths h env; cbn; (split; [intros Hone | intros [Hsp Hgt]]);
      try discriminate; try lia; done.
  - intros d. paths h env; cbn; intuition congruence.
Qed.

(** ** NotifyRestart *)

(** X15: [NotifyRestart] does nothing but subscribe until a SIGHUP arrives: a
    call that ends has seen the SIGHUP and ends as its [Restart] ends, with
    the process implementation as [Restart] left it; a missing [Process]
    is reported only then, as the [NoProcess] error, between the
    subscription to SIGHUP and its release. *)
Theorem NotifyRestart_waits h env :
  NotifyRestart h env false = (Block, h_Process h, [EvNotify SIGHUP]) ∧
  (∀ sighup o q tr,
     NotifyRestart h env sighup = (o, q, tr) → o ≠ Block →
     sighup = true ∧ o = Restart_outcome h env ∧ q = Restart_proc h env) ∧
  (h_Process h = None →
   NotifyRestart h env true =
     (Return (Some (mkError ErrNoProcess None)), None,
      [EvNotify SIGHUP; EvStop SIGHUP])).
Proof.
  split_and!.
  - reflexivity.
  - intros [|] o q tr; unfold NotifyRestart.
    + paths h env; cbn; intros [= <- <- <-]; done.
    + intros [= <- <- <-]. done.
  - intros Hnil. unfold NotifyRestart, Restart. by rewrite Hnil.
Qed.

(** X16: The subscriptions of [NotifyRestart]: the first event of every call is
    the subscription to SIGHUP; when the call returns or panics, the
    events of [Restart] lie between that subscription and its release, and
    every subscription of the call has been released; when the call never
    returns, a subscription is still held. *)
Theorem NotifyRestart_subscriptions h env (sighup : bool) :
  (∃ rest, (NotifyRestart h env sighup).2 = EvNotify SIGHUP :: rest) ∧
  ((NotifyRestart h env sighup).1.1 ≠ Block →
   (NotifyRestart h env sighup).2 =
     EvNotify SIGHUP :: Restart_trace h env ++ [EvStop SIGHUP] ∧
   calls is_Notify (NotifyRestart h env sighup).2 =
     calls is_Stop (NotifyRestart h env sighup).2) ∧
  ((NotifyRestart h env sighup).1.1 = Block →
   (calls is_Stop (NotifyRestart h env sighup).2 <
    calls is_Notify (NotifyRestart h env sighup).2)%nat).
Proof.
  unfold NotifyRestart. destruct sighup.
  - paths h env; cbn; (split_and!; [by eexists | intros Hb | intros Hb]);
      try done; try discriminate Hb; cbn; lia.
  - cbn. split_and!; [by eexists | done | intros _; cbn; lia].
Qed.

End HandshakeFacts.

(** ** The handshake on concrete calls *)

(** A call that runs to the end: the marker defaults to [-restart], the
    fake process sees one [BeginRestart] and one [Kill]. *)
Example Restart_completed :
  Restart (mkHupd (Some fake0) "" 0) (env0 (Some 5)) =
    (let cmd := mkCmd "prog" ["prog"; "-restart"; "-v"]
                  (Some (mkFile 1)) (Some (mkFile 2)) in
     (Return None, Some (mkFake 1 1 None []),
      [EvBeginRestart cmd None; EvNotify SIGTERM; EvStart cmd None;
       EvSelect None; EvKill; EvStop SIGTERM])).
Proof. vm_compute. reflexivity. Qed.

Lemma Restart_timeout_witness :
  let h := mkHupd (Some fake0) "" 1000 in
  let env := env0 (Some 2500) in
  Timeout h > 0 ∧
  spawned (Restart_trace h env) = true ∧
  Restart_outcome h env = Return (Some (mkError ErrTimeout None)) ∧
  calls is_Kill (Restart_trace h env) = 0%nat ∧
  kill_calls <$> Restart_proc h env = Some 0%nat.
Proof.
  intros h env.
  destruct (Restart_timeout h env) as (Hout & Hkill & _).
  - reflexivity.
  - vm_compute. reflexivity.
  - right. exists 2500. split; reflexivity.
  - repeat split; try assumption; vm_compute; reflexivity.
Defined.

Lemma Restart_kill_witness :
  let h := mkHupd (Some fake0) "" 0 in
  let env := env0 (Some 5) in
  Restart_outcome h env = Return None ∧
  calls is_Kill (Restart_trace h env) = 1%nat ∧
  kill_calls <$> Restart_proc h env = Some 1%nat ∧
  spawned (Restart_trace h env) = true ∧
  is_Some (sigterm_at env).
Proof.
  intros h env.
  destruct (Restart_kill h env) as (_ & _ & Honly & Hrun).
  destruct Hrun as (Hout & Hkill & _).
  - reflexivity.
  - vm_compute. reflexivity.
  - exists 5. reflexivity.
  - destruct (Honly Hkill) as (Hsp & Hsig & _).
    repeat split; try assumption; vm_compute; reflexivity.
Defined.

Lemma Restart_BeginRestart_error_witness :
  let h := mkHupd (Some (mkFake 0 0 (Some (mkerror "listener busy")) [])) "" 0 in
  let env := env0 (Some 5) in
  Restart_outcome h env =
    Return (Some (mkError ErrRestart (Some (mkerror "listener busy")))) ∧
  calls is_Start (Restart_trace h env) = 0%nat ∧
  calls is_Notify (Restart_trace h env) = 0%nat.
Proof.
  intros h env.
  destruct (Restart_BeginRestart_error h env) as (Hiff & _ & Hshape).
  split.
  - apply Hiff. eexists. vm_compute. left. reflexivity.
  - apply Hshape. vm_compute. reflexivity.
Defined.

Lemma Restart_spawn_error_witness :
  let h := mkHupd (Some fake0) "" 0 in
  let env := mkEnv proc0 4242 (λ _ _, None)
               (λ _, Some (mkerror "exec format error")) (Some 5) Sig in
  Restart_outcome h env =
    Return (Some (mkError ErrNewProcess (Some (mkerror "exec format error")))) ∧
  calls is_Select (Restart_trace h env) = 0%nat ∧
  calls is_Kill (Restart_trace h env) = 0%nat.
Proof.
  intros h env.
  destruct (Restart_spawn_error h env) as (Hiff & Hshape).
  split.
  - apply Hiff. do 2 eexists. vm_compute. split.
    + left. reflexivity.
    + right. right. left. reflexivity.
  - apply Hshape. vm_compute. reflexivity.
Defined.

Lemma Restart_subscription_witness :
  let h := mkHupd (Some fake0) "-hup" 1000 in
  let env := env0 None in
  ∃ cmd0 cmd err rest,
    Restart_trace h env =
      EvBeginRestart cmd0 None :: EvNotify SIGTERM :: EvStart cmd err :: rest ∧
    calls is_Notify rest = 0%nat ∧
    calls is_Start rest = 0%nat ∧
    (∀ e, Restart_outcome h env = Return e →
       ∃ mid, rest = mid ++ [EvStop SIGTERM] ∧ calls is_Stop mid = 0%nat).
Proof.
  intros h env. apply (Restart_subscription h env).
  do 2 eexists. vm_compute. right. right. left. reflexivity.
Defined.

Lemma Restart_negative_timeout_witness :
  let h := mkHupd (Some fake0) "" (-7) in
  Restart h (env0 (Some 5)) = Restart (mkHupd (Some fake0) "" 0) (env0 (Some 5)) ∧
  Restart_outcome h (env0 None) = Block ∧
  calls is_After (Restart_trace h (env0 None)) = 0%nat.
Proof.
  intros h. split.
  - apply (Restart_negative_timeout h (env0 (Some 5))). reflexivity.
  - destruct (Restart_negative_timeout h (env0 None)) as (_ & Hwait & _).
    destruct Hwait as (_ & Hafter & Hblock & _).
    + reflexivity.
    + vm_compute. reflexivity.
    + split; [apply Hblock; reflexivity | exact Hafter].
Defined.

Lemma Restart_NoProcess_witness :
  Restart (mkHupd (None : option Fake) "-hup" 30) (env0 (Some 5)) =
    (Return (Some (mkError ErrNoProcess None)), None, []).
Proof. apply Restart_NoProcess. reflexivity. Defined.

Lemma Start_spec_witness :
  Start (mkHupd (None : option Fake) "" 0)
    (mkEnv proc0 4242 (λ _ _, Some (mkerror "no such process")) (λ _, None) None Sig)
    true =
    (Some (mkError ErrKillProcess (Some (mkerror "no such process"))),
     [EvSignal 4242 SIGTERM (Some (mkerror "no such process"))]).
Proof.
  apply (Start_spec (mkHupd (None : option Fake) "" 0)
           (mkEnv proc0 4242 (λ _ _, Some (mkerror "no such process"))
              (λ _, None) None Sig)).
  reflexivity.
Defined.

(** ** Further concrete calls *)

Lemma restartCmd_inherits_witness :
  ∃ cmd, restartCmd proc0 "" = Some cmd ∧
         Path cmd = "prog" ∧
         Stdout cmd = Some (mkFile 1) ∧
         Stderr cmd = Some (mkFile 2).
Proof. apply (restartCmd_inherits proc0 "prog" ["-v"] ""). reflexivity. Defined.

Lemma restartCmd_marker_index_witness :
  ∃ cmd, restartCmd (mkProc ["prog"] (mkFile 1) (mkFile 2)) "-hup" = Some cmd ∧
         index (Args cmd) 0 = Some (Path cmd) ∧
         index (Args cmd) 0 = Some "prog" ∧
         index (Args cmd) 1 = Some "-hup".
Proof.
  apply (restartCmd_marker_index (mkProc ["prog"] (mkFile 1) (mkFile 2)) "-hup");
    discriminate.
Defined.

Lemma restartCmd_prepends_witness :
  Args <$> restartCmd proc0 "-restart" = Some ["prog"; "-restart"; "-v"].
Proof.
  apply (restartCmd_prepends proc0 "prog" ["-v"] "-restart");
    [reflexivity | discriminate | discriminate].
Defined.

Lemma Error_Error_injective_witness :
  Code (mkError 1 None) = Code (mkError (Z.succ 0) None).
Proof.
  apply (Error_Error_injective (mkError 1 None) (mkError (Z.succ 0) None));
    cbn; (lia || reflexivity).
Defined.

Lemma Restart_panics_witness :
  let h := mkHupd (Some fake0) "" 0 in
  let env := mkEnv (mkProc [] (mkFile 1) (mkFile 2)) 4242 (λ _ _, None)
               (λ _, None) None Sig in
  Restart_outcome h env = Panic ∧
  Restart_trace h env = [] ∧ Restart_proc h env = Some fake0.
Proof.
  intros h env. apply (Restart_panics h env); [by eexists | reflexivity].
Defined.

Lemma Restart_BeginRestart_cmd_witness :
  let h := mkHupd (Some fake0) "" 0 in
  let c := mkCmd "prog" ["prog"; "-restart"; "-v"]
             (Some (mkFile 1)) (Some (mkFile 2)) in
  In (EvBeginRestart c None) (Restart_trace h (env0 (Some 5))) ∧
  index (Args c) 1 = Some "-restart".
Proof.
  intros h c.
  assert (In (EvBeginRestart c None) (Restart_trace h (env0 (Some 5)))) as Hin.
  { vm_compute. left. reflexivity. }
  split; [exact Hin|].
  destruct (Restart_BeginRestart_cmd h (env0 (Some 5)) c None Hin)
    as (_ & _ & _ & _ & Hdef & _).
  apply Hdef. reflexivity.
Defined.

Lemma Restart_Start_cmd_witness :
  let f := mkFake 0 0 None ["-fd=3"] in
  let h := mkHupd (Some f) "" 0 in
  let c0 := mkCmd "prog" ["prog"; "-restart"; "-v"]
              (Some (mkFile 1)) (Some (mkFile 2)) in
  let c := mkCmd "prog" ["prog"; "-restart"; "-v"; "-fd=3"]
             (Some (mkFile 1)) (Some (mkFile 2)) in
  In (EvStart c None) (Restart_trace h (env0 (Some 5))) ∧
  c = (BeginRestart f c0).1.2.
Proof.
  intros f h c0 c.
  assert (In (EvStart c None) (Restart_trace h (env0 (Some 5)))) as Hin.
  { vm_compute. right. right. left. reflexivity. }
  split; [exact Hin|].
  apply (Restart_Start_cmd h (env0 (Some 5)) f c0 c None);
    [reflexivity | vm_compute; reflexivity | exact Hin].
Defined.

Lemma Restart_error_codes_witness :
  let h := mkHupd (Some fake0) "" 1000 in
  let e := mkError ErrTimeout None in
  Restart_outcome h (env0 None) = Return (Some e) ∧
  is_Some (errMessages !! Code e).
Proof.
  intros h e.
  assert (Restart_outcome h (env0 None) = Return (Some e)) as Hout.
  { vm_compute. reflexivity. }
  split; [exact Hout|].
  apply (Restart_error_codes h (env0 None) e Hout).
Defined.

Lemma Restart_blocks_witness :
  let h := mkHupd (Some fake0) "" 0 in
  Restart_outcome h (env0 None) = Block ∧
  calls is_Kill (Restart_trace h (env0 None)) = 0%nat ∧
  calls is_Stop (Restart_trace h (env0 None)) = 0%nat.
Proof.
  intros h. apply (Restart_blocks h (env0 None)).
  - vm_compute. reflexivity.
  - cbn. lia.
  - reflexivity.
Defined.

Lemma NotifyRestart_waits_witness :
  NotifyRestart (mkHupd (None : option Fake) "" 0) (env0 None) true =
    (Return (Some (mkError ErrNoProcess None)), None,
     [EvNotify SIGHUP; EvStop SIGHUP]).
Proof.
  apply (NotifyRestart_waits (mkHupd (None : option Fake) "" 0) (env0 None)).
  reflexivity.
Defined.

Lemma NotifyRestart_subscriptions_witness :
  let r := NotifyRestart (mkHupd (Some fake0) "" 0) (env0 (Some 5)) true in
  r.1.1 ≠ Block ∧ calls is_Notify r.2 = 2%nat ∧ calls is_Stop r.2 = 2%nat.
Proof.
  intros r.
  assert (r.1.1 ≠ Block) as Hne by (vm_compute; discriminate).
  destruct (NotifyRestart_subscriptions (mkHupd (Some fake0) "" 0)
              (env0 (Some 5)) true) as (_ & Hret & _).
  destruct (Hret Hne) as [_ Hbal].
  split; [exact Hne|]. split; [vm_compute; reflexivity|].
  fold r in Hbal. rewrite <- Hbal. vm_compute. reflexivity.
Defined.
